(** * Verification of [video_exporter.py] (pupil, shared_modules)

    Shallow embedding of the windowed re-encode generator
    [export_processed_h264] and of the plugin methods [add_export_job]
    and [recent_events] of [VideoExporter].

    Floating point values of the source are rationals [Q].  The pts
    computation rounds each of its float operations to IEEE 754 binary64
    ([fl], round to nearest, ties to even); the progress percents are
    kept exact.  Python's [int()] on a float is truncation toward zero. *)

From Stdlib Require Import Arith QArith Qround Qpower List String Ascii Bool Lia.
From Stdlib Require Import Sorting.Sorted Lqa.
Import ListNotations.
Open Scope string_scope.

(* ------------------------------------------------------------------ *)
(** ** Frames and the frame source *)

Record Frame := mkFrame { index : nat; timestamp : Q }.

(** Modelled from the spec: [video_capture.File_Source] (not part of the
    sources).  A source either fails to initialise, or holds its
    per-frame timestamp sequence; frame [i] has timestamp [nth i ts]. *)
Record File_Source := mkFile_Source {
  initialised : bool;
  timestamps : list Q
}.

(** Modelled from the spec: the decode queue of [File_Source].  After
    [seek_to_frame i], successive [get_frame] calls deliver the frames
    [i], [i+1], ... up to the last valid index, then signal
    end-of-stream ([EndofVideoError]). *)
Fixpoint frames_from (i : nat) (ts : list Q) : list Frame :=
  match ts with
  | [] => []
  | t :: ts' => mkFrame i t :: frames_from (S i) ts'
  end.

Definition seek_to_frame (capture : File_Source) (i : nat) : list Frame :=
  frames_from i (skipn i (timestamps capture)).

(* ------------------------------------------------------------------ *)
(** ** Observable actions of the generator *)

Inductive exn := ZeroDivisionError | IndexError | FileExistsError | OSError.

Inductive action :=
  | Yield (msg : string) (percent : Q)          (** [yield msg, percent] *)
  | AddStream (codec : string) (rate : Q)       (** [target_container.add_stream] *)
  | Encode (frame_index : nat) (pts : Z).       (** [video_stream.encode(av_frame)] *)

Inductive outcome := Returned | Raised (e : exn).

(** Python [int(x)] on a number: truncation toward zero. *)
Definition py_int (q : Q) : Z := Z.quot (Qnum q) (Zpos (Qden q)).

Definition time_base : Q := 1 # 65535.

(** *** IEEE 754 binary64 rounding

    [fl x] is the double nearest to [x] (ties to even), with the
    subnormal range down to [2^-1074].  A double is [m * 2^e] with
    [|m| < 2^53]; [float_exp] is the exponent [e] of the grid in the binade
    of [x].  Overflow to infinity is not represented: it needs values past
    [2^1024], far beyond the int64 pts range of the encoder. *)
Definition pow2 (e : Z) : Q := Qpower (2 # 1) e.

Definition qlog2 (x : Q) : Z :=
  let k := (Z.log2 (Qnum x) - Z.log2 (Zpos (Qden x)))%Z in
  if Qle_bool (pow2 k) x then k else (k - 1)%Z.

Definition float_exp (a : Q) : Z := Z.max (qlog2 a - 52) (-1074).

Definition round_half_even (s : Q) : Z :=
  let f := Qfloor s in
  match Qcompare (s - inject_Z f) (1 # 2) with
  | Lt => f
  | Gt => (f + 1)%Z
  | Eq => if Z.even f then f else (f + 1)%Z
  end.

(** Python float arithmetic: [x - y] is [fl (x - y)], [x / y] is
    [fl (x / y)], [float(Fraction(a, b))] is [fl (a # b)]. *)
Definition fl (x : Q) : Q :=
  if Qeq_bool x 0 then 0
  else
    let sign_pos := Qle_bool 0 x in
    let a := if sign_pos then x else - x in
    let e := float_exp a in
    let r := inject_Z (round_half_even (a * pow2 (- e))) * pow2 e in
    if sign_pos then r else - r.

Definition update_rate : nat := 10.

(** [float(a) / float(b)] where [b] is an int difference: raises on 0. *)
Definition progress_of (cur from to : nat) : option Q :=
  let den := (Z.of_nat to - Z.of_nat from)%Z in
  if (den =? 0)%Z then None
  else Some (((inject_Z (Z.of_nat cur - Z.of_nat from)) / inject_Z den)
               * (9 # 10) + (1 # 10)).

(** The [while True:] loop of [export_processed_h264], one iteration per
    retrieved frame.  [start_time] and [next_update_idx] are the loop's
    local variables.  Modelled from the spec: [capture.get_frame()] pops
    the head of the decode queue (an empty queue is [EndofVideoError]) and
    the adapter's [current_frame_idx] becomes the index of that frame. *)
Fixpoint convert_loop (export_from_index export_to_index : nat)
    (start_time : option Q) (next_update_idx : nat) (queue : list Frame)
    : list action * outcome :=
  match queue with
  | [] => ([], Returned)                                (* EndofVideoError *)
  | frame :: queue' =>
      if Nat.ltb export_to_index (index frame) then ([], Returned)
      else
        let start := match start_time with
                     | None => timestamp frame
                     | Some s => s
                     end in
        (* [int((frame.timestamp - start_time) / time_base)]: a float
           subtraction, then float division by [float(time_base)] *)
        let pts := py_int (fl (fl (timestamp frame - start) / fl time_base)) in
        let current_frame_idx := index frame in
        if Nat.leb next_update_idx current_frame_idx then
          match progress_of current_frame_idx export_from_index export_to_index with
          | None => ([Encode (index frame) pts], Raised ZeroDivisionError)
          | Some progress =>
              let '(tr, o) := convert_loop export_from_index export_to_index
                                (Some start) (next_update_idx + update_rate) queue' in
              (Encode (index frame) pts
                 :: Yield "Converting video" (progress * 100) :: tr, o)
          end
        else
          let '(tr, o) := convert_loop export_from_index export_to_index
                            (Some start) next_update_idx queue' in
          (Encode (index frame) pts :: tr, o)
  end.

Section Pipeline.

(** [pm.exact_window] and [pm.find_closest] (the timestamp index resolver,
    module [player_methods], not part of the sources) are taken as
    parameters: the claims quantify over the range they resolve. *)
Variable exact_window : list Q -> Q * Q -> list Q.
Variable find_closest : list Q -> list Q -> nat * nat.

Definition export_processed_h264 (world_timestamps : list Q)
    (capture : File_Source) (export_range : Q * Q) : list action * outcome :=
  let first := Yield "Converting video" (1 # 10) in
  if negb (initialised capture) then
    ([first; Yield "Converting scene video failed" 0], Returned)
  else
    let export_window := exact_window world_timestamps export_range in
    let '(export_from_index, export_to_index) :=
        find_closest (timestamps capture) export_window in
    let '(tr, o) := convert_loop export_from_index export_to_index None
                      (export_from_index + update_rate)
                      (seek_to_frame capture export_from_index) in
    match o with
    | Raised e => (first :: AddStream "mpeg4" (/ time_base) :: tr, Raised e)
    | Returned =>
        (first :: AddStream "mpeg4" (/ time_base) :: tr
           ++ [Yield "Converting video completed" (1 * 100)], Returned)
    end.

End Pipeline.

(** Views on a trace. *)
Fixpoint percents (tr : list action) : list Q :=
  match tr with
  | [] => []
  | Yield _ p :: tr' => p :: percents tr'
  | _ :: tr' => percents tr'
  end.

Fixpoint encodes (tr : list action) : list (nat * Z) :=
  match tr with
  | [] => []
  | Encode i p :: tr' => (i, p) :: encodes tr'
  | _ :: tr' => encodes tr'
  end.

(* ------------------------------------------------------------------ *)
(** ** Strings and paths *)

Definition ends_with_slash (s : string) : bool :=
  match get (String.length s - 1) s with
  | Some c => Ascii.eqb c "/"
  | None => false
  end.

(** [os.path.join(a, b)] (posixpath): an absolute [b] discards [a]. *)
Definition path_join (a b : string) : string :=
  if String.prefix "/" b then b
  else if String.eqb a "" then b
  else if ends_with_slash a then a ++ b
  else a ++ "/" ++ b.

(** [(before, from_last_c)] for the last occurrence of [c] in [s]. *)
Fixpoint last_split (c0 : ascii) (s : string) : option (string * string) :=
  match s with
  | EmptyString => None
  | String c s' =>
      match last_split c0 s' with
      | Some (b, e) => Some (String c b, e)
      | None => if Ascii.eqb c c0 then Some (EmptyString, s) else None
      end
  end.

(** The part of a path after its last ['/']. *)
Definition basename (p : string) : string :=
  match last_split "/" p with
  | Some (_, String _ name) => name
  | _ => p
  end.

Fixpoint all_dots (s : string) : bool :=
  match s with
  | EmptyString => true
  | String c s' => Ascii.eqb c "." && all_dots s'
  end.

(** [os.path.splitext(p)[-1]] (posixpath): the extension starts at the
    last ['.'] of the base name, unless only dots precede it there. *)
Definition splitext_ext (p : string) : string :=
  match last_split "." (basename p) with
  | Some (b, e) => if all_dots b then "" else e
  | None => ""
  end.

(** [str.replace(a, b)] for one-character [a] and [b]. *)
Fixpoint replace_char (a b : ascii) (s : string) : string :=
  match s with
  | EmptyString => EmptyString
  | String c s' =>
      String (if Ascii.eqb c a then b else c) (replace_char a b s')
  end.

(* ------------------------------------------------------------------ *)
(** ** Plugin state and an exception-state monad *)

(** Modelled from the spec: [background_helper.Task_Proxy] (not part of
    the sources): [fetch()] returns the events produced since the last
    call and [canceled] tells whether the task was cancelled.  [task_args]
    records the source and target video paths it was started with. *)
Record Task := mkTask {
  task_name : string;
  task_args : string * string;
  pending : list (string * Q);
  canceled : bool
}.

Record VideoExporter := mkVideoExporter {
  export_tasks : list (string * Task);
  status : string;
  progress : Q;
  output : string
}.

(** The file system: existing directories and regular files (full paths). *)
Record FS := mkFS { dirs : list string; files : list string }.

(** [g_pool]: the recording directory, the base names in it, and the
    key-value content of its [info.csv] ([None]: the file is missing). *)
Record GPool := mkGPool {
  rec_dir : string;
  rec_entries : list string;
  rec_info : option (list (string * string))
}.

Record St := mkSt { plugin : VideoExporter; fs : FS }.

Definition M (A : Type) : Type := St -> St * (exn + A).

Definition ret {A} (a : A) : M A := fun s => (s, inr a).
Definition bind {A B} (m : M A) (k : A -> M B) : M B :=
  fun s => match m s with
           | (s', inl e) => (s', inl e)
           | (s', inr a) => k a s'
           end.
Definition raise {A} (e : exn) : M A := fun s => (s, inl e).
Definition modify (f : St -> St) : M unit := fun s => (f s, inr tt).
Definition gets {A} (f : St -> A) : M A := fun s => (s, inr (f s)).

Notation "x <- m ;; k" := (bind m (fun x => k))
  (at level 61, m at next level, right associativity).
Notation "m ;;; k" := (bind m (fun _ => k))
  (at level 61, right associativity).

Definition set_output (o : string) (p : VideoExporter) : VideoExporter :=
  mkVideoExporter (export_tasks p) (status p) (progress p) o.

Definition append_task (t : string * Task) (p : VideoExporter) : VideoExporter :=
  mkVideoExporter (export_tasks p ++ [t]) (status p) (progress p) (output p).

Fixpoint lookup_key (k : string) (kv : list (string * string)) : option string :=
  match kv with
  | [] => None
  | (k', v) :: kv' => if String.eqb k k' then Some v else lookup_key k kv'
  end.

(** [os.makedirs(d, exist_ok=True)]: an existing directory is accepted, an
    existing regular file raises [FileExistsError].  (Intermediate
    directories are not tracked.) *)
Definition makedirs_exist_ok (d : string) : M unit :=
  fun s =>
    if existsb (String.eqb d) (files (fs s)) then (s, inl FileExistsError)
    else if existsb (String.eqb d) (dirs (fs s)) then (s, inr tt)
    else (mkSt (plugin s) (mkFS (d :: dirs (fs s)) (files (fs s))), inr tt).

(** [get_recording_start_date]: reads [info.csv]; a missing file raises an
    [OSError], a missing key a [KeyError] (both as [OSError] here). *)
Definition get_recording_start_date (g : GPool) : M string :=
  match rec_info g with
  | None => raise OSError
  | Some kv =>
      match lookup_key "Start Date" kv, lookup_key "Start Time" kv with
      | Some d, Some t =>
          let date := replace_char ":" "_" (replace_char "." "_" d) in
          let time := replace_char ":" "_" t in
          ret (date ++ "_" ++ time)
      | _, _ => raise OSError
      end
  end.

(** [glob(os.path.join(rec_dir, input_name + ".*"))]: the entries whose
    name starts with [input_name + "."], in directory order. *)
Definition glob_ext (g : GPool) (input_name : string) : list string :=
  map (path_join (rec_dir g))
      (filter (String.prefix (input_name ++ ".")) (rec_entries g)).

Definition accepted_ext (e : string) : bool :=
  existsb (String.eqb e) [".mp4"; ".mkv"; ".avi"; ".mjpeg"].

(** Python [xs[0]]. *)
Definition py_index0 {A} (xs : list A) : M A :=
  match xs with
  | [] => raise IndexError
  | x :: _ => ret x
  end.

(** [VideoExporter.add_export_job].  [export_range], [process_frame] and
    [g_pool.timestamps] are handed to the task unchanged and are left out;
    the returned dictionary [{"export_folder": im_dir}] is its one value. *)
Definition add_export_job (g : GPool)
    (export_dir plugin_name input_name output_name : string) : M string :=
  rec_start <- get_recording_start_date g ;;
  let im_dir := path_join export_dir (plugin_name ++ "_" ++ rec_start) in
  makedirs_exist_ok im_dir ;;;
  modify (fun s => mkSt (set_output im_dir (plugin s)) (fs s)) ;;;
  distorted_video_loc <-
    py_index0 (filter (fun f => accepted_ext (splitext_ext f))
                      (glob_ext g input_name)) ;;
  let target_video_loc := path_join im_dir (output_name ++ ".mp4") in
  let task := mkTask (plugin_name ++ " Video Export")
                     (distorted_video_loc, target_video_loc) [] false in
  modify (fun s => mkSt (append_task ("taskname", task) (plugin s)) (fs s)) ;;;
  ret im_dir.

(** [task.fetch()] consumes the pending events of a task. *)
Definition fetch (t : Task) : list (string * Q) * Task :=
  (pending t, mkTask (task_name t) (task_args t) [] (canceled t)).

(** Python [xs[-1]] on a non-empty list. *)
Fixpoint last_opt {A} (xs : list A) : option A :=
  match xs with
  | [] => None
  | [x] => Some x
  | _ :: xs' => last_opt xs'
  end.

(** The body of [for task_name, task in self.export_tasks:] in
    [recent_events], threading [status] and [progress]. *)
Fixpoint recent_events_loop (tasks : list (string * Task))
    (status progress : _) : list (string * Task) * (string * Q) :=
  match tasks with
  | [] => ([], (status, progress))
  | (name, task) :: rest =>
      let '(recent, task') := fetch task in
      let '(status1, progress1) :=
          match last_opt recent with
          | Some ev => ev
          | None => (status, progress)
          end in
      let '(status2, progress2) :=
          if canceled task then ("Export has been canceled", 0)
          else (status1, progress1) in
      let '(rest', sp) := recent_events_loop rest status2 progress2 in
      ((name, task') :: rest', sp)
  end.

Definition recent_events (p : VideoExporter) : VideoExporter :=
  let '(tasks', (st, pr)) :=
      recent_events_loop (export_tasks p) (status p) (progress p) in
  mkVideoExporter tasks' st pr (output p).

(** Modelled from the spec: [Task_Proxy.cancel()] sets the task's
    cancelled flag. *)
Definition task_cancel (t : Task) : Task :=
  mkTask (task_name t) (task_args t) (pending t) true.

(** [VideoExporter.cancel]: cancels every tracked task, then drops the
    list.  The cancelled task objects are returned beside the new plugin
    state; the plugin keeps no reference to them. *)
Definition cancel (p : VideoExporter) : list Task * VideoExporter :=
  (map (fun nt => task_cancel (snd nt)) (export_tasks p),
   mkVideoExporter [] (status p) (progress p) (output p)).

(** [VideoExporter.cleanup] *)
Definition cleanup (p : VideoExporter) : list Task * VideoExporter := cancel p.

(** [VideoExporter.__init__] *)
Definition init_VideoExporter : VideoExporter :=
  mkVideoExporter [] "Not exporting" 0 "Not set yet".

(** [gl_display]: [self.menu_icon.indicator_stop = self.progress / 100.] *)
Definition gl_display (p : VideoExporter) : Q := progress p / 100.

(** A notification dictionary: [subject], [range], [export_dir]. *)
Record Notification := mkNotification {
  subject : string;
  notif_range : Q * Q;
  notif_export_dir : string
}.

(** [VideoExporter.on_notify], for the abstract [export_data]. *)
Definition on_notify (export_data : Q * Q -> string -> M unit) (n : Notification)
    : M unit :=
  if String.eqb (subject n) "should_export" then
    modify (fun s => mkSt (snd (cancel (plugin s))) (fs s)) ;;;
    export_data (notif_range n) (notif_export_dir n)
  else ret tt.

(** An [export_data] override that makes one [add_export_job] call for
    the given names, as a concrete subclass does. *)
Definition single_job_export_data (g : GPool) (plugin_name input_name output_name : string)
    : Q * Q -> string -> M unit :=
  fun _ export_dir =>
    _ <- add_export_job g export_dir plugin_name input_name output_name ;; ret tt.

(** No tracked task is flagged as cancelled. *)
Definition no_canceled (p : VideoExporter) : Prop :=
  forall n t, In (n, t) (export_tasks p) -> canceled t = false.

(* ------------------------------------------------------------------ *)
(** ** Rounding to binary64 *)

Lemma pow2_pos e : 0 < pow2 e.
Proof. apply Qpower_0_lt. reflexivity. Qed.

Lemma pow2_plus a b : pow2 (a + b) == pow2 a * pow2 b.
Proof. unfold pow2. apply Qpower_plus. discriminate. Qed.

Lemma pow2_lt a b : (a < b)%Z -> pow2 a < pow2 b.
Proof. intros H. apply Qpower_lt_compat_l; [exact H | reflexivity]. Qed.

Lemma pow2_le a b : (a <= b)%Z -> pow2 a <= pow2 b.
Proof. intros H. apply Qpower_le_compat_l; [exact H | discriminate]. Qed.

Lemma pow2_Z n : (0 <= n)%Z -> pow2 n == inject_Z (2 ^ n).
Proof. intros H. unfold pow2. rewrite Zpower_Qpower by exact H. reflexivity. Qed.

Lemma pow2_diff m n : (0 <= m)%Z -> (0 <= n)%Z ->
  pow2 (m - n) == inject_Z (2 ^ m) / inject_Z (2 ^ n).
Proof.
  intros Hm Hn. unfold Z.sub. rewrite pow2_plus. unfold pow2 at 2.
  rewrite Qpower_opp. fold (pow2 n). rewrite !pow2_Z by lia. reflexivity.
Qed.

Lemma inject_div (p q : Z) : (0 < q)%Z -> inject_Z p / inject_Z q == p # Z.to_pos q.
Proof.
  intros H. rewrite (Qmake_Qdiv p (Z.to_pos q)). rewrite Z2Pos.id by exact H. reflexivity.
Qed.

Lemma qlog2_spec x : 0 < x -> pow2 (qlog2 x) <= x /\ x < pow2 (qlog2 x + 1).
Proof.
  intros Hx. destruct x as [a b].
  unfold Qlt in Hx; cbn in Hx.
  unfold qlog2. cbn [Qnum Qden].
  set (la := Z.log2 a). set (lb := Z.log2 (Z.pos b)).
  assert (Ha := Z.log2_spec a ltac:(lia)). assert (Hb := Z.log2_spec (Z.pos b) ltac:(lia)).
  fold la in Ha. fold lb in Hb.
  assert (Hla : (0 <= la)%Z) by apply Z.log2_nonneg.
  assert (Hlb : (0 <= lb)%Z) by apply Z.log2_nonneg.
  rewrite Z.pow_succ_r in Ha, Hb by assumption.
  assert (HA : (0 < 2 ^ la)%Z) by (apply Z.pow_pos_nonneg; lia).
  assert (HB : (0 < 2 ^ lb)%Z) by (apply Z.pow_pos_nonneg; lia).
  set (A := (2 ^ la)%Z) in *. set (B := (2 ^ lb)%Z) in *.

  (* x < 2^(k+1) *)
  assert (Hup : a # b < pow2 (la - lb + 1)).
  { replace (la - lb + 1)%Z with ((la + 1) - lb)%Z by ring.
    rewrite pow2_diff by lia. rewrite Z.pow_add_r by lia. fold A B.
    rewrite inject_div by lia. unfold Qlt; cbn [Qnum Qden].
    rewrite Z2Pos.id by lia. nia. }
  assert (Hlo : pow2 (la - lb - 1) <= a # b).
  { replace (la - lb - 1)%Z with (la - (lb + 1))%Z by ring.
    rewrite pow2_diff by lia. rewrite (Z.pow_add_r 2 lb 1) by lia. fold A B.
    rewrite inject_div by lia. unfold Qle; cbn [Qnum Qden].
    rewrite Z2Pos.id by lia. nia. }
  destruct (Qle_bool (pow2 (la - lb)) (a # b)) eqn:E.
  - apply Qle_bool_iff in E. split; assumption.
  - assert (E' : ~ pow2 (la - lb) <= a # b) by (rewrite <- Qle_bool_iff, E; discriminate).
    apply Qnot_le_lt in E'. split; [exact Hlo |].
    replace (la - lb - 1 + 1)%Z with (la - lb)%Z by ring. exact E'.
Qed.

Lemma qlog2_mono x y : 0 < x -> x <= y -> (qlog2 x <= qlog2 y)%Z.
Proof.
  intros Hx Hxy.
  destruct (qlog2_spec x Hx) as [H1 _].
  destruct (qlog2_spec y ltac:(lra)) as [_ H2].
  destruct (Z.le_gt_cases (qlog2 x) (qlog2 y)) as [H | H]; [exact H |].
  exfalso. pose proof (pow2_le (qlog2 y + 1) (qlog2 x) ltac:(lia)). lra.
Qed.

Lemma round_half_even_bounds s :
  (Qfloor s <= round_half_even s <= Qfloor s + 1)%Z.
Proof.
  unfold round_half_even.
  destruct (Qcompare _ _); [destruct (Z.even _) |..]; lia.
Qed.

Lemma round_half_even_Z n : round_half_even (inject_Z n) = n.
Proof.
  unfold round_half_even. rewrite Qfloor_Z.
  replace (Qcompare (inject_Z n - inject_Z n) (1 # 2)) with Lt; [reflexivity |].
  symmetry. apply Qlt_alt. setoid_replace (inject_Z n - inject_Z n) with 0 by ring. reflexivity.
Qed.

Lemma round_half_even_mono s t : s <= t -> (round_half_even s <= round_half_even t)%Z.
Proof.
  intros Hst.
  pose proof (Qfloor_resp_le s t Hst) as Hf.
  pose proof (round_half_even_bounds s) as Bs.
  pose proof (round_half_even_bounds t) as Bt.
  destruct (Z.le_gt_cases (Qfloor s + 1) (Qfloor t)) as [H | H]; [lia |].
  assert (E : Qfloor s = Qfloor t) by lia.
  unfold round_half_even. rewrite <- E.
  set (f := Qfloor s).
  assert (Hr : s - inject_Z f <= t - inject_Z f) by lra.
  destruct (Qcompare_spec (s - inject_Z f) (1 # 2)) as [Es | Es | Es];
  destruct (Qcompare_spec (t - inject_Z f) (1 # 2)) as [Et | Et | Et];
  try destruct (Z.even f); try lia; lra.
Qed.

Lemma round_half_even_nonneg s : 0 <= s -> (0 <= round_half_even s)%Z.
Proof.
  intros H. rewrite <- (round_half_even_Z 0). apply round_half_even_mono. exact H.
Qed.

(** On a positive value rounding scales to the exponent of its binade. *)
Lemma fl_pos x : 0 < x ->
  fl x = inject_Z (round_half_even (x * pow2 (- float_exp x))) * pow2 (float_exp x).
Proof.
  intros Hx. unfold fl.
  destruct (Qeq_bool x 0) eqn:E0.
  - apply Qeq_bool_iff in E0. lra.
  - destruct (Qle_bool 0 x) eqn:E1; [reflexivity |].
    exfalso. assert (0 <= x) by lra. apply Qle_bool_iff in H. congruence.
Qed.

Lemma fl_zero x : x == 0 -> fl x = 0.
Proof.
  intros H. unfold fl. apply Qeq_bool_iff in H. rewrite H. reflexivity.
Qed.

Lemma fl_nonneg x : 0 <= x -> 0 <= fl x.
Proof.
  intros Hx. destruct (Qeq_bool x 0) eqn:E0.
  - apply Qeq_bool_iff in E0. rewrite fl_zero by exact E0. lra.
  - assert (Hx' : 0 < x).
    { apply Qle_lt_or_eq in Hx. destruct Hx as [H | H]; [exact H |].
      symmetry in H. apply Qeq_bool_iff in H. congruence. }
    rewrite fl_pos by exact Hx'.
    apply Qmult_le_0_compat; [| apply Qlt_le_weak, pow2_pos].
    change 0 with (inject_Z 0). rewrite <- Zle_Qle.
    apply round_half_even_nonneg. apply Qmult_le_0_compat; [lra |].
    apply Qlt_le_weak, pow2_pos.
Qed.

Lemma fl_mono x y : 0 <= x -> x <= y -> fl x <= fl y.
Proof.
  intros Hx Hxy.
  destruct (Qeq_bool x 0) eqn:E0.
  - apply Qeq_bool_iff in E0. rewrite fl_zero by exact E0. apply fl_nonneg. lra.
  - assert (Hx' : 0 < x).
    { apply Qle_lt_or_eq in Hx. destruct Hx as [H | H]; [exact H |].
      symmetry in H. apply Qeq_bool_iff in H. congruence. }
    assert (Hy : 0 < y) by lra.
    rewrite !fl_pos by assumption.
    pose proof (qlog2_mono x y Hx' Hxy) as Hl.
    assert (He : (float_exp x <= float_exp y)%Z) by (unfold float_exp; lia).
    set (ex := float_exp x) in *. set (ey := float_exp y) in *.
    destruct (Z.eq_dec ex ey) as [Eq | Ne].
    + rewrite <- Eq.
      apply Qmult_le_compat_r; [| apply Qlt_le_weak, pow2_pos].
      rewrite <- Zle_Qle. apply round_half_even_mono.
      apply Qmult_le_compat_r; [exact Hxy | apply Qlt_le_weak, pow2_pos].
    + assert (Hey : ey = (qlog2 y - 52)%Z) by (unfold ey, ex, float_exp in *; lia).
      assert (Hex : (qlog2 x - 52 <= ex)%Z) by (unfold ex, float_exp; lia).
      destruct (qlog2_spec x Hx') as [_ Hxu].
      destruct (qlog2_spec y Hy) as [Hyl _].
      (* x's significand is at most 2^53 *)
      assert (Hsx : (round_half_even (x * pow2 (- ex)) <= 2 ^ 53)%Z).
      { rewrite <- (round_half_even_Z (2 ^ 53)). apply round_half_even_mono.
        rewrite <- pow2_Z by lia.
        apply Qle_trans with (pow2 (qlog2 x + 1) * pow2 (- ex)).
        - apply Qmult_le_compat_r; [lra | apply Qlt_le_weak, pow2_pos].
        - rewrite <- pow2_plus. apply pow2_le. lia. }
      (* y's significand is at least 2^52 *)
      assert (Hsy : (2 ^ 52 <= round_half_even (y * pow2 (- ey)))%Z).
      { rewrite <- (round_half_even_Z (2 ^ 52)). apply round_half_even_mono.
        rewrite <- pow2_Z by lia.
        apply Qle_trans with (pow2 (qlog2 y) * pow2 (- ey)).
        - rewrite <- pow2_plus. rewrite Hey. apply pow2_le. lia.
        - apply Qmult_le_compat_r; [lra | apply Qlt_le_weak, pow2_pos]. }
      apply Qle_trans with (inject_Z (2 ^ 53) * pow2 ex).
      { apply Qmult_le_compat_r; [rewrite <- Zle_Qle; exact Hsx | apply Qlt_le_weak, pow2_pos]. }
      apply Qle_trans with (inject_Z (2 ^ 52) * pow2 ey).
      2: { apply Qmult_le_compat_r; [rewrite <- Zle_Qle; exact Hsy | apply Qlt_le_weak, pow2_pos]. }
      rewrite <- !pow2_Z by lia. rewrite <- !pow2_plus. apply pow2_le. lia.
Qed.

Lemma fl_time_base_pos : 0 < fl time_base.
Proof. vm_compute. reflexivity. Qed.

(* ------------------------------------------------------------------ *)
(** ** Lemmas on the conversion loop *)

(** The in-loop percent for the current index [cur]. *)
Definition loop_percent (from to cur : nat) : Q :=
  ((inject_Z (Z.of_nat cur - Z.of_nat from) / inject_Z (Z.of_nat to - Z.of_nat from))
     * (9 # 10) + (1 # 10)) * 100.

Lemma progress_of_fires (from to cur : nat) :
  (from + update_rate <= cur <= to)%nat ->
  exists p, progress_of cur from to = Some p /\ p * 100 = loop_percent from to cur.
Proof.
  intros H. unfold progress_of, update_rate in *.
  destruct (Z.eqb_spec (Z.of_nat to - Z.of_nat from) 0) as [E | E].
  - lia.
  - eexists; split; reflexivity.
Qed.



Section Loop.

Variables from to : nat.

(** The conversion loop never reaches the division with a zero
    denominator while [next_update_idx >= from + update_rate]. *)
Lemma convert_loop_returns (l : list Q) (i : nat) (st : option Q) (nu : nat) :
  (from + update_rate <= nu)%nat ->
  snd (convert_loop from to st nu (frames_from i l)) = Returned.
Proof.
  revert i st nu. induction l as [| t l IH]; intros i st nu Hnu; simpl.
  - reflexivity.
  - destruct (Nat.ltb_spec to i) as [Hlt | Hge]; [reflexivity |].
    destruct (Nat.leb_spec nu i) as [Hfire | Hnofire].
    + destruct (progress_of_fires from to i) as [p [Hp _]]; [lia |].
      rewrite Hp.
      specialize (IH (S i) (Some match st with None => t | Some s => s end)
                    (nu + update_rate)%nat).
      destruct (convert_loop _ _ _ _ _) as [tr o]; simpl in *.
      apply IH. lia.
    + specialize (IH (S i) (Some match st with None => t | Some s => s end) nu).
      destruct (convert_loop _ _ _ _ _) as [tr o]; simpl in *. auto.
Qed.


(** One iteration of the loop on a frame inside the range, as an
    equation on the traces. *)
Ltac loop_case IH i t st nu' :=
  specialize (IH (S i) (Some match st with None => t | Some s => s end) nu');
  destruct (convert_loop from to _ _ (frames_from (S i) _)) as [tr o];
  cbn [fst snd encodes percents List.length In] in *.



(** The loop encodes the frames of the queue up to index [to]. *)
Lemma convert_loop_count (l : list Q) (i : nat) (st : option Q) (nu : nat) :
  (from + update_rate <= nu)%nat ->
  List.length (encodes (fst (convert_loop from to st nu (frames_from i l))))
  = Nat.min (List.length l) (S to - i).
Proof.
  revert i st nu. induction l as [| t l IH]; intros i st nu Hnu;
    cbn [frames_from convert_loop List.length index timestamp].
  - reflexivity.
  - destruct (Nat.ltb_spec to i) as [Hlt | Hge].
    + cbn [fst encodes List.length]. lia.
    + destruct (Nat.leb_spec nu i) as [Hfire | Hnofire].
      * destruct (progress_of_fires from to i) as [q [Hq Hq100]]; [lia |].
        rewrite Hq. loop_case IH i t st (nu + update_rate)%nat.
        rewrite IH by lia. lia.
      * loop_case IH i t st nu. rewrite IH by lia. lia.
Qed.

(** With the origin [s] fixed, every encoded frame gets the pts of its own
    timestamp relative to [s]. *)
Lemma convert_loop_pts_some (l : list Q) (i : nat) (s : Q) (nu : nat) idx pts :
  In (Encode idx pts) (fst (convert_loop from to (Some s) nu (frames_from i l))) ->
  (i <= idx)%nat /\ pts = py_int (fl (fl (nth (idx - i) l 0 - s) / fl time_base)).
Proof.
  revert i nu. induction l as [| t l IH]; intros i nu Hin;
    cbn [frames_from convert_loop index timestamp] in Hin.
  - destruct Hin.
  - destruct (Nat.ltb_spec to i) as [Hlt | Hge]; [destruct Hin |].
    assert (Hhead : Encode i (py_int (fl (fl (t - s) / fl time_base))) = Encode idx pts ->
                    (i <= idx)%nat /\ pts = py_int (fl (fl (nth (idx - i) (t :: l) 0 - s) / fl time_base))).
    { intros E. injection E as <- <-. rewrite Nat.sub_diag. split; reflexivity. }
    assert (Htail : forall nu', In (Encode idx pts)
                      (fst (convert_loop from to (Some s) nu' (frames_from (S i) l))) ->
                    (i <= idx)%nat /\ pts = py_int (fl (fl (nth (idx - i) (t :: l) 0 - s) / fl time_base))).
    { intros nu' H. destruct (IH (S i) nu' H) as [H1 H2]. split; [lia |].
      replace (idx - i)%nat with (S (idx - S i)) by lia. exact H2. }
    destruct (Nat.leb nu i).
    + destruct (progress_of i from to) as [q |].
      * pose proof (Htail (nu + update_rate)%nat) as Ht.
        destruct (convert_loop from to (Some s) _ (frames_from (S i) l)) as [tr o].
        cbn [fst In] in *.
        destruct Hin as [E | [E | Hin]]; [exact (Hhead E) | discriminate | exact (Ht Hin)].
      * cbn [fst In] in Hin. destruct Hin as [E | []]. exact (Hhead E).
    + pose proof (Htail nu) as Ht.
      destruct (convert_loop from to (Some s) _ (frames_from (S i) l)) as [tr o].
      cbn [fst In] in *.
      destruct Hin as [E | Hin]; [exact (Hhead E) | exact (Ht Hin)].
Qed.

Lemma py_int_self (t : Q) : py_int (fl (fl (t - t) / fl time_base)) = 0%Z.
Proof.
  rewrite (fl_zero (t - t)) by ring.
  rewrite (fl_zero (0 / fl time_base)) by (unfold Qdiv; ring).
  reflexivity.
Qed.

(** From the initial state ([start_time = None]) the origin is the
    timestamp of the first retrieved frame. *)
Lemma convert_loop_pts_none (l : list Q) (i : nat) (nu : nat) idx pts :
  In (Encode idx pts) (fst (convert_loop from to None nu (frames_from i l))) ->
  (i <= idx)%nat /\ pts = py_int (fl (fl (nth (idx - i) l 0 - nth 0 l 0) / fl time_base)).
Proof.
  destruct l as [| t l]; intros Hin;
    cbn [frames_from convert_loop index timestamp] in Hin.
  - destruct Hin.
  - destruct (Nat.ltb_spec to i) as [Hlt | Hge]; [destruct Hin |].
    assert (Hhead : Encode i (py_int (fl (fl (t - t) / fl time_base))) = Encode idx pts ->
                    (i <= idx)%nat /\ pts = py_int (fl (fl (nth (idx - i) (t :: l) 0 - nth 0 (t :: l) 0) / fl time_base))).
    { intros E. injection E as <- <-. rewrite Nat.sub_diag. split; reflexivity. }
    assert (Htail : forall nu', In (Encode idx pts)
                      (fst (convert_loop from to (Some t) nu' (frames_from (S i) l))) ->
                    (i <= idx)%nat /\ pts = py_int (fl (fl (nth (idx - i) (t :: l) 0 - nth 0 (t :: l) 0) / fl time_base))).
    { intros nu' H. destruct (convert_loop_pts_some l (S i) t nu' idx pts H) as [H1 H2].
      split; [lia |]. replace (idx - i)%nat with (S (idx - S i)) by lia. exact H2. }
    destruct (Nat.leb nu i).
    + destruct (progress_of i from to) as [q |].
      * pose proof (Htail (nu + update_rate)%nat) as Ht.
        destruct (convert_loop from to (Some t) _ (frames_from (S i) l)) as [tr o].
        cbn [fst In] in *.
        destruct Hin as [E | [E | Hin]]; [exact (Hhead E) | discriminate | exact (Ht Hin)].
      * cbn [fst In] in Hin. destruct Hin as [E | []]. exact (Hhead E).
    + pose proof (Htail nu) as Ht.
      destruct (convert_loop from to (Some t) _ (frames_from (S i) l)) as [tr o].
      cbn [fst In] in *.
      destruct Hin as [E | Hin]; [exact (Hhead E) | exact (Ht Hin)].
Qed.

(** The first encoded frame of the loop started with [start_time = None]
    gets pts 0. *)
Lemma convert_loop_first_pts (l : list Q) (i : nat) (nu : nat) idx pts rest :
  encodes (fst (convert_loop from to None nu (frames_from i l))) = (idx, pts) :: rest ->
  pts = 0%Z.
Proof.
  destruct l as [| t l]; cbn [frames_from convert_loop index timestamp]; intros H.
  - discriminate.
  - destruct (Nat.ltb to i); [discriminate |].
    rewrite py_int_self in H.
    destruct (Nat.leb nu i); [destruct (progress_of i from to) |].
    + destruct (convert_loop _ _ _ _ _); cbn in H; congruence.
    + cbn in H; congruence.
    + destruct (convert_loop _ _ _ _ _); cbn in H; congruence.
Qed.

End Loop.

(* ------------------------------------------------------------------ *)
(** ** Lemmas on whole runs of [export_processed_h264] *)

Open Scope list_scope.

Lemma percents_app (l1 l2 : list action) :
  percents (l1 ++ l2) = percents l1 ++ percents l2.
Proof.
  induction l1 as [| [] l1 IH]; simpl; rewrite ?IH; reflexivity.
Qed.

Lemma encodes_app (l1 l2 : list action) :
  encodes (l1 ++ l2) = encodes l1 ++ encodes l2.
Proof.
  induction l1 as [| [] l1 IH]; simpl; rewrite ?IH; reflexivity.
Qed.


(** A run on an initialised source: the liveness event, the stream set-up,
    the loop from [export_from_index], and the completion event. *)
Lemma export_initialised ew fc wts capture rng from to :
  initialised capture = true ->
  fc (timestamps capture) (ew wts rng) = (from, to) ->
  export_processed_h264 ew fc wts capture rng =
  (Yield "Converting video" (1 # 10) :: AddStream "mpeg4" (/ time_base)
     :: fst (convert_loop from to None (from + update_rate)%nat
               (seek_to_frame capture from))
     ++ [Yield "Converting video completed" (1 * 100)], Returned).
Proof.
  intros Hi Hfc. unfold export_processed_h264. rewrite Hi, Hfc. cbn [negb].
  pose proof (convert_loop_returns from to (skipn from (timestamps capture)) from
                None (from + update_rate)%nat ltac:(lia)) as Hr.
  unfold seek_to_frame in *.
  destruct (convert_loop _ _ _ _ _) as [tr o]. cbn [snd fst] in *. subst o.
  reflexivity.
Qed.

(** Claim C1. On an initialised source whose resolved range satisfies
    [export_from_index <= export_to_index] and whose frames reach
    [export_to_index], exactly [export_to_index - export_from_index + 1]
    frames are encoded. *)
Theorem export_frame_count ew fc wts capture rng from to :
  initialised capture = true ->
  fc (timestamps capture) (ew wts rng) = (from, to) ->
  (from <= to)%nat ->
  (to < List.length (timestamps capture))%nat ->
  List.length (encodes (fst (export_processed_h264 ew fc wts capture rng)))
  = (to - from + 1)%nat.
Proof.
  intros Hi Hfc Hle Hlt. rewrite (export_initialised ew fc wts capture rng from to Hi Hfc).
  cbn [fst encodes]. rewrite encodes_app. cbn [encodes]. rewrite app_nil_r.
  unfold seek_to_frame. rewrite convert_loop_count by lia.
  rewrite length_skipn. lia.
Qed.

(** Claim C2. Whatever the range and the source, the first encoded frame
    of a run has presentation timestamp 0. *)
Theorem export_first_pts_zero ew fc wts capture rng idx pts rest :
  encodes (fst (export_processed_h264 ew fc wts capture rng)) = (idx, pts) :: rest ->
  pts = 0%Z.
Proof.
  unfold export_processed_h264.
  destruct (initialised capture); cbn [negb]; [| cbn; discriminate].
  destruct (fc _ _) as [from to].
  destruct (convert_loop from to None _ _) as [tr o] eqn:E.
  intros H. apply (convert_loop_first_pts from to
                     (skipn from (timestamps capture)) from (from + update_rate)%nat
                     idx pts rest).
  unfold seek_to_frame in E. rewrite E. cbn [fst].
  destruct o; cbn [fst encodes] in H; [rewrite encodes_app in H |]; cbn in H;
    [rewrite app_nil_r in H |]; exact H.
Qed.

(** Claim C3 (as stated, refuted). The pts is not the exact quotient
    [(t - origin) / (1/65535)] truncated: the code divides in binary64.
    With source timestamps [0] and [1.5259021896696422e-05] (the double
    nearest to [1/65535], slightly below it) frame 1 gets pts 1, while the
    exact quotient is below 1 and truncates to 0. *)
Lemma export_pts_not_exact_quotient :
  ~ (forall ew fc wts capture rng from to,
       initialised capture = true ->
       fc (timestamps capture) (ew wts rng) = (from, to) ->
       forall idx pts,
         In (Encode idx pts) (fst (export_processed_h264 ew fc wts capture rng)) ->
         pts = py_int ((nth idx (timestamps capture) 0
                        - nth from (timestamps capture) 0) / time_base)).
Proof.
  intros H.
  specialize (H (fun _ _ => []) (fun _ _ => (0%nat, 1%nat)) []
                (mkFile_Source true [0; 281479271743489 # 18446744073709551616]) (0, 1)
                0%nat 1%nat eq_refl eq_refl 1%nat 1%Z ltac:(vm_compute; tauto)).
  vm_compute in H. discriminate H.
Qed.

(** Claim C3 (amended). On an initialised source, every encoded frame with
    index [idx] gets the pts
    [int(float(ts[idx] - ts[export_from_index]) / float(1/65535))],
    computed in binary64, the origin being the timestamp of the first
    retrieved frame; the stream is added at rate [1 / time_base] with
    [time_base = 1/65535]. *)
Theorem export_pts_time_base ew fc wts capture rng from to :
  initialised capture = true ->
  fc (timestamps capture) (ew wts rng) = (from, to) ->
  (forall idx pts,
     In (Encode idx pts) (fst (export_processed_h264 ew fc wts capture rng)) ->
     pts = py_int (fl (fl (nth idx (timestamps capture) 0
                    - nth from (timestamps capture) 0) / fl time_base)))
  /\ In (AddStream "mpeg4" (/ time_base))
        (fst (export_processed_h264 ew fc wts capture rng))
  /\ time_base = 1 # 65535.
Proof.
  intros Hi Hfc. rewrite (export_initialised ew fc wts capture rng from to Hi Hfc).
  cbn [fst]. split; [| split; [right; left; reflexivity | reflexivity]].
  intros idx pts Hin.
  destruct Hin as [E | [E | Hin]]; try discriminate.
  apply in_app_iff in Hin. destruct Hin as [Hin | [E | []]]; [| discriminate].
  unfold seek_to_frame in Hin.
  destruct (convert_loop_pts_none from to _ _ _ _ _ Hin) as [H1 H2].
  rewrite H2, !nth_skipn, Nat.add_0_r.
  replace (from + (idx - from))%nat with idx by lia. reflexivity.
Qed.

(** Claim C4. When the source fails to initialise the run yields the
    liveness event and then the failure event at 0, encodes nothing, and
    returns normally. *)
Theorem export_init_failure ew fc wts capture rng :
  initialised capture = false ->
  export_processed_h264 ew fc wts capture rng
  = ([Yield "Converting video" (1 # 10);
      Yield "Converting scene video failed" 0], Returned)
  /\ encodes (fst (export_processed_h264 ew fc wts capture rng)) = [].
Proof.
  intros Hi. unfold export_processed_h264. rewrite Hi. split; reflexivity.
Qed.








(** ** Witnesses of the pipeline theorems on concrete runs *)

Definition demo_source : File_Source := mkFile_Source true (repeat 0 30).
Definition demo_source3 : File_Source := mkFile_Source true [0; 1 # 2; 1].
Definition failing_source : File_Source := mkFile_Source false [].
Definition no_window : list Q -> Q * Q -> list Q := fun _ _ => [].

Lemma export_frame_count_witness :
  initialised demo_source = true /\
  (fun _ _ => (2%nat, 27%nat)) (timestamps demo_source) (no_window [] (0, 0))
    = (2%nat, 27%nat) /\
  (2 <= 27)%nat /\ (27 < List.length (timestamps demo_source))%nat /\
  List.length (encodes (fst (export_processed_h264 no_window
     (fun _ _ => (2%nat, 27%nat)) [] demo_source (0, 0)))) = 26%nat.
Proof.
  split; [reflexivity | split; [reflexivity | split; [lia | split; [vm_compute; lia |]]]].
  apply (export_frame_count no_window (fun _ _ => (2%nat, 27%nat)) [] demo_source (0, 0)
           2 27); [reflexivity | reflexivity | lia | vm_compute; lia].
Defined.

Lemma export_first_pts_zero_witness :
  encodes (fst (export_processed_h264 no_window (fun _ _ => (1%nat, 2%nat)) []
                  demo_source3 (0, 0))) = [(1%nat, 0%Z); (2%nat, 32767%Z)]
  /\ (0 = 0)%Z.
Proof.
  split; [vm_compute; reflexivity |].
  apply (export_first_pts_zero no_window (fun _ _ => (1%nat, 2%nat)) [] demo_source3
           (0, 0) 1 0 [(2%nat, 32767%Z)]).
  vm_compute. reflexivity.
Defined.

Lemma export_pts_time_base_witness :
  initialised demo_source3 = true /\
  In (Encode 2 32767) (fst (export_processed_h264 no_window (fun _ _ => (1%nat, 2%nat)) []
                              demo_source3 (0, 0))) /\
  32767%Z = py_int (fl (fl (nth 2 (timestamps demo_source3) 0
                     - nth 1 (timestamps demo_source3) 0) / fl time_base)).
Proof.
  split; [reflexivity | split; [vm_compute; tauto |]].
  apply (proj1 (export_pts_time_base no_window (fun _ _ => (1%nat, 2%nat)) [] demo_source3
                  (0, 0) 1 2 eq_refl eq_refl)).
  vm_compute. tauto.
Defined.

Lemma export_init_failure_witness :
  initialised failing_source = false /\
  encodes (fst (export_processed_h264 no_window (fun _ _ => (0%nat, 0%nat)) []
                  failing_source (0, 0))) = [].
Proof.
  split; [reflexivity |].
  apply (proj2 (export_init_failure no_window (fun _ _ => (0%nat, 0%nat)) []
                  failing_source (0, 0) eq_refl)).
Defined.



(* ------------------------------------------------------------------ *)
(** ** [add_export_job] *)

Definition demo_info : list (string * string) :=
  [("Start Date", "01.02.2017"); ("Start Time", "10:11:12")].

Definition fresh_plugin : VideoExporter :=
  mkVideoExporter [] "Not exporting" 0 "Not set yet".

(** Claim C7. When the start date can be read and the destination is not
    a regular file, but no entry of the recording directory matches
    [input_name] with an accepted extension, [add_export_job] raises
    [IndexError] (from [[...][0]]) and registers no task. *)
Theorem add_export_job_no_source_raises g export_dir plugin_name input_name
    output_name s rec_start :
  get_recording_start_date g s = (s, inr rec_start) ->
  existsb (String.eqb (path_join export_dir (plugin_name ++ "_" ++ rec_start)))
          (files (fs s)) = false ->
  filter (fun f => accepted_ext (splitext_ext f)) (glob_ext g input_name) = [] ->
  snd (add_export_job g export_dir plugin_name input_name output_name s) = inl IndexError
  /\ export_tasks (plugin (fst (add_export_job g export_dir plugin_name input_name
                                  output_name s))) = export_tasks (plugin s).
Proof.
  intros Hg Hf Hnone.
  unfold add_export_job, bind, modify, ret, py_index0. cbv beta.
  rewrite Hg. cbv iota beta zeta.
  unfold makedirs_exist_ok. rewrite Hf.
  destruct (existsb _ (dirs (fs s))); cbv iota beta zeta; rewrite Hnone;
    split; reflexivity.
Qed.

Lemma add_export_job_no_source_raises_witness :
  get_recording_start_date (mkGPool "/rec" ["world.txt"] (Some demo_info))
    (mkSt fresh_plugin (mkFS [] []))
  = (mkSt fresh_plugin (mkFS [] []), inr "01_02_2017_10_11_12") /\
  snd (add_export_job (mkGPool "/rec" ["world.txt"] (Some demo_info)) "/exp"
         "iMotions" "world" "scene" (mkSt fresh_plugin (mkFS [] []))) = inl IndexError.
Proof.
  split; [reflexivity |].
  apply (add_export_job_no_source_raises (mkGPool "/rec" ["world.txt"] (Some demo_info))
           "/exp" "iMotions" "world" "scene" (mkSt fresh_plugin (mkFS [] []))
           "01_02_2017_10_11_12"); reflexivity.
Defined.

(** With a matching source file, [add_export_job] returns the destination
    directory, leaves an existing directory as it is, and appends one new,
    not yet started or cancelled, task. *)
Lemma add_export_job_registers g export_dir plugin_name input_name output_name s
    rec_start f rest :
  get_recording_start_date g s = (s, inr rec_start) ->
  existsb (String.eqb (path_join export_dir (plugin_name ++ "_" ++ rec_start)))
          (files (fs s)) = false ->
  filter (fun f => accepted_ext (splitext_ext f)) (glob_ext g input_name) = f :: rest ->
  let im_dir := path_join export_dir (plugin_name ++ "_" ++ rec_start) in
  let r := add_export_job g export_dir plugin_name input_name output_name s in
  snd r = inr im_dir
  /\ In im_dir (dirs (fs (fst r)))
  /\ (In im_dir (dirs (fs s)) -> fs (fst r) = fs s)
  /\ export_tasks (plugin (fst r))
     = export_tasks (plugin s)
       ++ [("taskname", mkTask (plugin_name ++ " Video Export")
                          (f, path_join im_dir (output_name ++ ".mp4")) [] false)].
Proof.
  intros Hg Hf Hm im_dir r. subst r.
  unfold add_export_job, bind, modify, ret, py_index0. cbv beta.
  rewrite Hg. cbv iota beta zeta.
  unfold makedirs_exist_ok. rewrite Hf. fold im_dir.
  destruct (existsb (String.eqb im_dir) (dirs (fs s))) eqn:Hd;
    cbv iota beta zeta; rewrite Hm; cbn [fst snd fs plugin dirs export_tasks append_task].
  - apply existsb_exists in Hd. destruct Hd as [d [Hin Heq]].
    apply String.eqb_eq in Heq. subst d.
    split; [reflexivity | split; [exact Hin | split; [reflexivity | reflexivity]]].
  - split; [reflexivity | split; [left; reflexivity | split; [| reflexivity]]].
    intros Hin. exfalso.
    assert (existsb (String.eqb im_dir) (dirs (fs s)) = true).
    { apply existsb_exists. exists im_dir. split; [exact Hin | apply String.eqb_refl]. }
    congruence.
Qed.

(** Claim C8. On a recording directory without a matching source file the
    call does not succeed even though the destination directory already
    exists: [makedirs] accepts the directory, then [[...][0]] raises
    [IndexError] and no task is registered. *)
Theorem add_export_job_existing_dir_no_source :
  let s := mkSt fresh_plugin (mkFS ["/exp/iMotions_01_02_2017_10_11_12"] []) in
  let r := add_export_job (mkGPool "/rec" ["world.txt"; "world.npy"] (Some demo_info))
             "/exp" "iMotions" "world" "scene" s in
  snd r = inl IndexError
  /\ fs (fst r) = fs s
  /\ export_tasks (plugin (fst r)) = [].
Proof.
  vm_compute. split; [reflexivity | split; reflexivity].
Qed.


(* ------------------------------------------------------------------ *)
(** ** [recent_events] *)

(** A task with no new events that is not cancelled. *)
Definition quiet (t : Task) : Prop := pending t = [] /\ canceled t = false.

Lemma last_opt_cons {A} (x : A) (xs : list A) : last_opt (x :: xs) <> None.
Proof.
  revert x. induction xs as [| y xs IH]; intros x; [discriminate |].
  exact (IH y).
Qed.

Lemma recent_events_loop_quiet tasks st pr :
  (forall n t, In (n, t) tasks -> quiet t) ->
  snd (recent_events_loop tasks st pr) = (st, pr).
Proof.
  revert st pr. induction tasks as [| [n t] tasks IH]; intros st pr Hq; [reflexivity |].
  destruct (Hq n t (or_introl eq_refl)) as [Hp Hc].
  cbn [recent_events_loop fetch]. rewrite Hp, Hc. cbn [last_opt].
  specialize (IH st pr (fun n' t' H => Hq n' t' (or_intror H))).
  destruct (recent_events_loop tasks st pr) as [r sp]. exact IH.
Qed.

Lemma recent_events_loop_app l1 l2 st pr :
  snd (recent_events_loop (l1 ++ l2) st pr)
  = snd (recent_events_loop l2 (fst (snd (recent_events_loop l1 st pr)))
                               (snd (snd (recent_events_loop l1 st pr)))).
Proof.
  revert st pr. induction l1 as [| [n t] l1 IH]; intros st pr; [reflexivity |].
  cbn [app recent_events_loop fetch].
  destruct (match last_opt (pending t) with Some ev => ev | None => (st, pr) end)
    as [s1 p1].
  destruct (if canceled t then ("Export has been canceled", 0) else (s1, p1)) as [s2 p2].
  specialize (IH s2 p2).
  destruct (recent_events_loop (l1 ++ l2) s2 p2) as [r sp].
  destruct (recent_events_loop l1 s2 p2) as [r1 [s3 p3]].
  exact IH.
Qed.

(** Claim C10 (as stated, refuted). With two tracked tasks, the first one
    quiet and the second one with a new event, [recent_events] changes the
    status and progress although a tracked task had no new events and was
    not cancelled. *)
Lemma recent_events_quiet_task_counterexample :
  ~ (forall p name t,
       In (name, t) (export_tasks p) -> pending t = [] -> canceled t = false ->
       status (recent_events p) = status p /\ progress (recent_events p) = progress p).
Proof.
  intros H.
  set (t1 := mkTask "a Video Export" ("", "") [] false).
  set (t2 := mkTask "b Video Export" ("", "") [("Converting video", 50)] false).
  specialize (H (mkVideoExporter [("taskname", t1); ("taskname", t2)]
                   "Not exporting" 0 "Not set yet")
                "taskname" t1 (or_introl eq_refl) eq_refl eq_refl).
  vm_compute in H. destruct H as [H _]. discriminate H.
Qed.

(** Claim C10 (amended). If every tracked task is quiet, [recent_events]
    leaves [status] and [progress] unchanged.  Otherwise the last task in
    list order that is not quiet decides them: a cancelled one sets the
    cancellation message and 0, another one its last new event. *)
Theorem recent_events_status_progress p pre name t post :
  ((forall n t', In (n, t') (export_tasks p) -> quiet t') ->
     status (recent_events p) = status p /\ progress (recent_events p) = progress p)
  /\ (export_tasks p = pre ++ (name, t) :: post ->
      (forall n t', In (n, t') post -> quiet t') ->
      (canceled t = true ->
         (status (recent_events p), progress (recent_events p))
         = ("Export has been canceled", 0))
      /\ (canceled t = false -> pending t <> [] ->
            last_opt (pending t)
            = Some (status (recent_events p), progress (recent_events p)))).
Proof.
  unfold recent_events. split.
  - intros Hq.
    pose proof (recent_events_loop_quiet (export_tasks p) (status p) (progress p) Hq) as H.
    destruct (recent_events_loop _ _ _) as [r [st pr]]. cbn in *.
    injection H as -> ->. split; reflexivity.
  - intros He Hq.
    pose proof (recent_events_loop_app pre ((name, t) :: post) (status p) (progress p)) as H.
    rewrite <- He in H.
    destruct (recent_events_loop (export_tasks p) _ _) as [r [st pr]].
    cbn [snd status progress]. cbn [snd] in H.
    destruct (recent_events_loop pre (status p) (progress p)) as [r1 [s1 p1]].
    cbn [fst snd recent_events_loop fetch] in H.
    destruct (match last_opt (pending t) with Some ev => ev | None => (s1, p1) end)
      as [s2 p2] eqn:Hl.
    destruct (if canceled t then ("Export has been canceled", 0) else (s2, p2))
      as [s3 p3] eqn:Hc.
    pose proof (recent_events_loop_quiet post s3 p3 Hq) as Hpost.
    destruct (recent_events_loop post s3 p3) as [r2 sp]. cbn in Hpost, H.
    rewrite Hpost in H. injection H as -> ->.
    split.
    + intros Hct. rewrite Hct in Hc. injection Hc as <- <-. reflexivity.
    + intros Hcf Hne. rewrite Hcf in Hc. injection Hc as <- <-.
      destruct (last_opt (pending t)) as [ev |] eqn:Hlast.
      * subst ev. reflexivity.
      * exfalso. destruct (pending t) as [| x xs]; [exact (Hne eq_refl) |].
        exact (last_opt_cons x xs Hlast).
Qed.

Definition demo_tasks : list (string * Task) :=
  [("taskname", mkTask "a Video Export" ("", "") [] false);
   ("taskname", mkTask "b Video Export" ("", "") [("Converting video", 50)] false)].

Lemma recent_events_status_progress_witness :
  demo_tasks = [("taskname", mkTask "a Video Export" ("", "") [] false)]
               ++ ("taskname", mkTask "b Video Export" ("", "")
                                 [("Converting video", 50)] false) :: [] /\
  last_opt [("Converting video", 50)]
  = Some (status (recent_events (mkVideoExporter demo_tasks "Not exporting" 0 "Not set yet")),
          progress (recent_events (mkVideoExporter demo_tasks "Not exporting" 0 "Not set yet"))).
Proof.
  split; [reflexivity |].
  apply (proj2 (proj2 (recent_events_status_progress
                         (mkVideoExporter demo_tasks "Not exporting" 0 "Not set yet")
                         [("taskname", mkTask "a Video Export" ("", "") [] false)]
                         "taskname"
                         (mkTask "b Video Export" ("", "") [("Converting video", 50)] false)
                         [])
                      eq_refl (fun n t' H => match H with end))
           eq_refl).
  discriminate.
Defined.


(* ------------------------------------------------------------------ *)
(** ** Further properties of the conversion loop *)

(** The loop encodes consecutive indices, starting at the queue's first
    index, up to [to] or the end of the queue. *)
Lemma convert_loop_indices from to (l : list Q) (i : nat) (st : option Q) (nu : nat) :
  (from + update_rate <= nu)%nat ->
  map fst (encodes (fst (convert_loop from to st nu (frames_from i l))))
  = seq i (Nat.min (List.length l) (S to - i)).
Proof.
  revert i st nu. induction l as [| t l IH]; intros i st nu Hnu;
    cbn [frames_from convert_loop List.length index timestamp].
  - reflexivity.
  - destruct (Nat.ltb_spec to i) as [Hlt | Hge].
    + replace (Nat.min (S (List.length l)) (S to - i)) with 0%nat by lia. reflexivity.
    + replace (Nat.min (S (List.length l)) (S to - i))
        with (S (Nat.min (List.length l) (S to - S i))) by lia.
      cbn [seq].
      destruct (Nat.leb_spec nu i) as [Hfire | Hnofire].
      * destruct (progress_of_fires from to i) as [q [Hq Hq100]]; [lia |].
        rewrite Hq.
        specialize (IH (S i) (Some match st with None => t | Some s => s end)
                      (nu + update_rate)%nat ltac:(lia)).
        destruct (convert_loop from to _ _ (frames_from (S i) l)) as [tr o].
        cbn in *. rewrite IH. reflexivity.
      * specialize (IH (S i) (Some match st with None => t | Some s => s end) nu Hnu).
        destruct (convert_loop from to _ _ (frames_from (S i) l)) as [tr o].
        cbn in *. rewrite IH. reflexivity.
Qed.

(** One progress event per [update_rate] frames: the events fire at the
    indices [nu], [nu + 10], ... below the end of the encoded range. *)
Lemma convert_loop_events_count from to (l : list Q) (i : nat) (st : option Q) (nu : nat) :
  (from + update_rate <= nu)%nat -> (i <= nu)%nat ->
  List.length (percents (fst (convert_loop from to st nu (frames_from i l))))
  = ((Nat.min (S to) (i + List.length l) - nu + 9) / 10)%nat.
Proof.
  revert i st nu. induction l as [| t l IH]; intros i st nu Hnu Hi;
    cbn [frames_from convert_loop List.length index timestamp].
  - cbn [fst percents List.length].
    replace (Nat.min (S to) (i + 0) - nu + 9)%nat with (Nat.min (S to) (i + 0) - nu + 9)%nat
      by reflexivity.
    symmetry. apply Nat.div_small. lia.
  - destruct (Nat.ltb_spec to i) as [Hlt | Hge].
    + cbn [fst percents List.length]. symmetry. apply Nat.div_small. lia.
    + destruct (Nat.leb_spec nu i) as [Hfire | Hnofire].
      * destruct (progress_of_fires from to i) as [q [Hq Hq100]]; [lia |].
        rewrite Hq.
        specialize (IH (S i) (Some match st with None => t | Some s => s end)
                      (nu + update_rate)%nat ltac:(lia) ltac:(unfold update_rate; lia)).
        destruct (convert_loop from to _ _ (frames_from (S i) l)) as [tr o].
        cbn [fst percents List.length] in *. rewrite IH.
        unfold update_rate.
        replace (i + S (List.length l))%nat with (S i + List.length l)%nat by lia.
        set (m := Nat.min (S to) (S i + List.length l)).
        assert (Hm : (S i <= m)%nat) by (unfold m; lia).
        destruct (Nat.le_gt_cases (m - nu) 10) as [Hs | Hb].
        -- replace (m - (nu + 10))%nat with 0%nat by lia.
           rewrite (Nat.div_small 9) by lia.
           apply (Nat.div_unique _ _ 1 (m - nu + 9 - 10)); lia.
        -- replace (m - nu + 9)%nat with (1 * 10 + (m - (nu + 10) + 9))%nat by lia.
           rewrite Nat.div_add_l by lia. lia.
      * specialize (IH (S i) (Some match st with None => t | Some s => s end) nu Hnu
                      ltac:(lia)).
        destruct (convert_loop from to _ _ (frames_from (S i) l)) as [tr o].
        cbn [fst percents List.length] in *. rewrite IH.
        replace (i + S (List.length l))%nat with (S i + List.length l)%nat by lia.
        reflexivity.
Qed.


Lemma In_encodes (tr : list action) i p :
  In (i, p) (encodes tr) -> In (Encode i p) tr.
Proof.
  induction tr as [| [] tr IH]; cbn; intros H; auto.
  destruct H as [E | H]; [injection E as -> ->; auto | auto].
Qed.

Lemma py_int_floor (q : Q) : 0 <= q -> py_int q = Qfloor q.
Proof.
  destruct q as [n d]. unfold py_int, Qfloor, Qle. cbn. intros H.
  apply Z.quot_div_nonneg; lia.
Qed.

Lemma StronglySorted_nth (l : list Q) i j :
  StronglySorted Qle l -> (i <= j < List.length l)%nat -> nth i l 0 <= nth j l 0.
Proof.
  revert i j. induction l as [| a l IH]; intros i j Hs Hij; cbn in Hij; [lia |].
  inversion Hs as [| ? ? Hs' Hf]; subst.
  destruct i as [| i], j as [| j]; cbn.
  - apply Qle_refl.
  - rewrite Forall_forall in Hf. apply Hf, nth_In. lia.
  - lia.
  - apply IH; [exact Hs' | lia].
Qed.

Lemma map_seq_sorted (f : nat -> Z) s k :
  (forall a b, (s <= a <= b)%nat -> (b < s + k)%nat -> (f a <= f b)%Z) ->
  Sorted Z.le (map f (seq s k)).
Proof.
  revert s. induction k as [| k IH]; intros s Hf; cbn; [constructor |].
  constructor.
  - apply IH. intros a b Hab Hb. apply Hf; lia.
  - destruct k as [| k]; cbn; constructor. apply Hf; lia.
Qed.

(** Shared by the run-level properties below: the pts of every encoded
    frame, and the indices of the encoded frames. *)
Lemma export_pts_formula ew fc wts capture rng from to :
  initialised capture = true ->
  fc (timestamps capture) (ew wts rng) = (from, to) ->
  forall idx pts,
    In (Encode idx pts) (fst (export_processed_h264 ew fc wts capture rng)) ->
    pts = py_int (fl (fl (nth idx (timestamps capture) 0
                   - nth from (timestamps capture) 0) / fl time_base)).
Proof.
  intros Hi Hfc. rewrite (export_initialised ew fc wts capture rng from to Hi Hfc).
  cbn [fst]. intros idx pts Hin.
  destruct Hin as [E | [E | Hin]]; try discriminate.
  apply in_app_iff in Hin. destruct Hin as [Hin | [E | []]]; [| discriminate].
  unfold seek_to_frame in Hin.
  destruct (convert_loop_pts_none from to _ _ _ _ _ Hin) as [H1 H2].
  rewrite H2, !nth_skipn, Nat.add_0_r.
  replace (from + (idx - from))%nat with idx by lia. reflexivity.
Qed.

Lemma export_indices_formula ew fc wts capture rng from to :
  initialised capture = true ->
  fc (timestamps capture) (ew wts rng) = (from, to) ->
  map fst (encodes (fst (export_processed_h264 ew fc wts capture rng)))
  = seq from (Nat.min (List.length (timestamps capture) - from) (S to - from)).
Proof.
  intros Hi Hfc. rewrite (export_initialised ew fc wts capture rng from to Hi Hfc).
  cbn [fst encodes]. rewrite encodes_app. cbn [encodes]. rewrite app_nil_r.
  unfold seek_to_frame. rewrite convert_loop_indices by lia.
  rewrite length_skipn. reflexivity.
Qed.

(** ** Further properties of whole runs *)

(** The encoded frames are the source frames [export_from_index],
    [export_from_index + 1], ... in order, without gaps or repetitions,
    up to [export_to_index] or the last source frame. *)
Theorem export_encoded_indices ew fc wts capture rng from to :
  initialised capture = true ->
  fc (timestamps capture) (ew wts rng) = (from, to) ->
  map fst (encodes (fst (export_processed_h264 ew fc wts capture rng)))
  = seq from (Nat.min (List.length (timestamps capture) - from) (S to - from)).
Proof.
  exact (export_indices_formula ew fc wts capture rng from to).
Qed.

Lemma export_encoded_indices_witness :
  initialised demo_source = true /\
  map fst (encodes (fst (export_processed_h264 no_window (fun _ _ => (2%nat, 27%nat)) []
                           demo_source (0, 0)))) = seq 2 26.
Proof.
  split; [reflexivity |].
  apply (export_encoded_indices no_window (fun _ _ => (2%nat, 27%nat)) [] demo_source
           (0, 0) 2 27 eq_refl eq_refl).
Defined.

(** Throttling: a run on an initialised source that encodes [k] frames
    yields [(k - 1) / 10] in-loop progress events, besides the liveness
    and the completion events. *)
Theorem export_progress_event_count ew fc wts capture rng :
  initialised capture = true ->
  List.length (percents (fst (export_processed_h264 ew fc wts capture rng)))
  = (2 + (List.length (encodes (fst (export_processed_h264 ew fc wts capture rng))) - 1) / 10)%nat.
Proof.
  intros Hi.
  destruct (fc (timestamps capture) (ew wts rng)) as [from to] eqn:Hfc.
  rewrite (export_initialised ew fc wts capture rng from to Hi Hfc).
  cbn [fst encodes percents]. rewrite encodes_app, percents_app. cbn [encodes percents].
  rewrite app_nil_r. cbn [List.length]. rewrite length_app. cbn [List.length].
  unfold seek_to_frame.
  rewrite convert_loop_count by lia.
  rewrite convert_loop_events_count by (unfold update_rate; lia).
  rewrite length_skipn. unfold update_rate.
  set (n := List.length (timestamps capture)).
  set (k := Nat.min (n - from) (S to - from)).
  set (E := Nat.min (S to) (from + (n - from))).
  destruct (Nat.le_gt_cases k 10) as [Hs | Hb].
  - rewrite (Nat.div_small (k - 1)) by lia.
    rewrite (Nat.div_small (E - (from + 10) + 9)) by (unfold E, k in *; lia).
    lia.
  - replace (E - (from + 10) + 9)%nat with (k - 1)%nat by (unfold E, k in *; lia).
    lia.
Qed.

Lemma export_progress_event_count_witness :
  initialised demo_source = true /\
  List.length (percents (fst (export_processed_h264 no_window (fun _ _ => (2%nat, 27%nat)) []
                                demo_source (0, 0)))) = 4%nat.
Proof.
  split; [reflexivity |].
  rewrite (export_progress_event_count no_window (fun _ _ => (2%nat, 27%nat)) [] demo_source
             (0, 0) eq_refl).
  vm_compute. reflexivity.
Defined.

(** On a source whose timestamps are non-decreasing, the presentation
    timestamps of the encoded frames are non-negative and non-decreasing. *)
Theorem export_pts_monotone ew fc wts capture rng :
  initialised capture = true ->
  Sorted Qle (timestamps capture) ->
  Sorted Z.le (map snd (encodes (fst (export_processed_h264 ew fc wts capture rng))))
  /\ Forall (fun p => (0 <= p)%Z)
            (map snd (encodes (fst (export_processed_h264 ew fc wts capture rng)))).
Proof.
  intros Hi Hs.
  destruct (fc (timestamps capture) (ew wts rng)) as [from to] eqn:Hfc.
  pose proof (export_pts_formula ew fc wts capture rng from to Hi Hfc) as Hpts.
  pose proof (export_indices_formula ew fc wts capture rng from to Hi Hfc) as Hidx.
  set (ts := timestamps capture) in *.
  set (f := fun idx => py_int (fl (fl (nth idx ts 0 - nth from ts 0) / fl time_base))).
  set (L := encodes (fst (export_processed_h264 ew fc wts capture rng))) in *.
  assert (HL : map snd L = map f (map fst L)).
  { assert (Hin : forall x, In x L -> snd x = f (fst x)).
    { intros [i p] H. apply In_encodes in H. exact (Hpts i p H). }
    clear - Hin. induction L as [| x L IH]; cbn; [reflexivity |].
    rewrite (Hin x (or_introl eq_refl)), IH; [reflexivity |].
    intros y Hy. apply Hin. right. exact Hy. }
  rewrite HL, Hidx.
  apply Sorted_StronglySorted in Hs; [| intros a b c; apply Qle_trans].
  set (k := Nat.min (List.length ts - from) (S to - from)).
  set (c := fl time_base).
  assert (Hc : 0 < c) by exact fl_time_base_pos.
  assert (Hd : forall a, (from <= a)%nat -> (a < from + k)%nat ->
                0 <= fl (nth a ts 0 - nth from ts 0) / c).
  { intros a H1 H2. apply Qle_shift_div_l; [exact Hc |]. rewrite Qmult_0_l.
    apply fl_nonneg.
    pose proof (StronglySorted_nth ts from a Hs ltac:(unfold k in *; lia)). lra. }
  assert (Hq : forall a, (from <= a)%nat -> (a < from + k)%nat ->
                0 <= fl (fl (nth a ts 0 - nth from ts 0) / c)).
  { intros a H1 H2. apply fl_nonneg, Hd; assumption. }
  split.
  - apply map_seq_sorted. intros a b Hab Hb. unfold f.
    rewrite !py_int_floor by (apply Hq; lia).
    apply Qfloor_resp_le. apply fl_mono; [apply Hd; lia |].
    apply Qmult_le_compat_r; [| apply Qlt_le_weak, Qinv_lt_0_compat, Hc].
    pose proof (StronglySorted_nth ts from a Hs ltac:(unfold k in *; lia)).
    pose proof (StronglySorted_nth ts a b Hs ltac:(unfold k in *; lia)).
    apply fl_mono; lra.
  - apply Forall_forall. intros p Hp. apply in_map_iff in Hp.
    destruct Hp as [a [<- Ha]]. apply in_seq in Ha. unfold f.
    rewrite py_int_floor by (apply Hq; lia).
    change 0%Z with (Qfloor 0). apply Qfloor_resp_le. apply Hq; lia.
Qed.

Lemma export_pts_monotone_witness :
  initialised demo_source3 = true /\ Sorted Qle (timestamps demo_source3) /\
  Sorted Z.le (map snd (encodes (fst (export_processed_h264 no_window
                 (fun _ _ => (1%nat, 2%nat)) [] demo_source3 (0, 0))))).
Proof.
  assert (Hs : Sorted Qle (timestamps demo_source3)).
  { cbn. repeat constructor; unfold Qle; cbn; lia. }
  split; [reflexivity | split; [exact Hs |]].
  apply (proj1 (export_pts_monotone no_window (fun _ _ => (1%nat, 2%nat)) [] demo_source3
                  (0, 0) eq_refl Hs)).
Defined.

(** An empty range (its end before its start, or its start past the last
    source frame) encodes nothing: the run is the liveness event, the
    stream set-up and the completion event at 100. *)
Theorem export_empty_range ew fc wts capture rng from to :
  initialised capture = true ->
  fc (timestamps capture) (ew wts rng) = (from, to) ->
  (to < from \/ List.length (timestamps capture) <= from)%nat ->
  export_processed_h264 ew fc wts capture rng
  = ([Yield "Converting video" (1 # 10); AddStream "mpeg4" (/ time_base);
      Yield "Converting video completed" (1 * 100)], Returned).
Proof.
  intros Hi Hfc Hr. rewrite (export_initialised ew fc wts capture rng from to Hi Hfc).
  unfold seek_to_frame.
  destruct (skipn from (timestamps capture)) as [| t l] eqn:Hsk; [reflexivity |].
  cbn [frames_from convert_loop index].
  destruct (Nat.ltb_spec to from) as [Hlt | Hge]; [reflexivity |].
  exfalso. assert (Hlen := length_skipn from (timestamps capture)).
  rewrite Hsk in Hlen. cbn in Hlen. lia.
Qed.

Lemma export_empty_range_witness :
  initialised demo_source = true /\ (5 < 7 \/ 30 <= 7)%nat /\
  snd (export_processed_h264 no_window (fun _ _ => (7%nat, 5%nat)) [] demo_source (0, 0))
  = Returned.
Proof.
  split; [reflexivity | split; [lia |]].
  rewrite (export_empty_range no_window (fun _ _ => (7%nat, 5%nat)) [] demo_source (0, 0)
             7 5 eq_refl eq_refl ltac:(lia)).
  reflexivity.
Defined.


(* ------------------------------------------------------------------ *)
(** ** Further properties of [add_export_job] and its helpers *)

Lemma get_recording_start_date_state g s :
  fst (get_recording_start_date g s) = s.
Proof.
  unfold get_recording_start_date.
  destruct (rec_info g) as [kv |]; [| reflexivity].
  destruct (lookup_key "Start Date" kv), (lookup_key "Start Time" kv); reflexivity.
Qed.

(** What a successful [add_export_job] returns and changes. *)
Lemma add_export_job_success_spec g export_dir plugin_name input_name output_name s d :
  snd (add_export_job g export_dir plugin_name input_name output_name s) = inr d ->
  exists rec_start f,
    get_recording_start_date g s = (s, inr rec_start)
    /\ d = path_join export_dir (plugin_name ++ "_" ++ rec_start)
    /\ In f (glob_ext g input_name) /\ accepted_ext (splitext_ext f) = true
    /\ In d (dirs (fs (fst (add_export_job g export_dir plugin_name input_name output_name s))))
    /\ output (plugin (fst (add_export_job g export_dir plugin_name input_name output_name s))) = d
    /\ export_tasks (plugin (fst (add_export_job g export_dir plugin_name input_name
                                    output_name s)))
       = export_tasks (plugin s)
         ++ [("taskname", mkTask (plugin_name ++ " Video Export")
                            (f, path_join d (output_name ++ ".mp4")) [] false)].
Proof.
  pose proof (get_recording_start_date_state g s) as Hst.
  destruct (get_recording_start_date g s) as [s1 [e | rs]] eqn:Hg;
    cbn [fst] in Hst; subst s1.
  - unfold add_export_job, bind at 1. cbv beta. rewrite Hg. cbn. intros H; discriminate H.
  - destruct (existsb (String.eqb (path_join export_dir (plugin_name ++ "_" ++ rs)))
      (files (fs s))) eqn:Hf.
    + unfold add_export_job, bind at 1. cbv beta. rewrite Hg. cbv iota beta zeta.
      unfold bind at 1, makedirs_exist_ok. rewrite Hf. cbn. intros H; discriminate H.
    + destruct (filter (fun f => accepted_ext (splitext_ext f)) (glob_ext g input_name))
        as [| f rest] eqn:Hm.
      * unfold add_export_job, bind, modify, ret, py_index0. cbv beta.
        rewrite Hg. cbv iota beta zeta. unfold makedirs_exist_ok. rewrite Hf.
        destruct (existsb _ (dirs (fs s))); cbv iota beta zeta; rewrite Hm; intros H; discriminate H.
      * destruct (add_export_job_registers g export_dir plugin_name input_name output_name
                    s rs f rest Hg Hf Hm) as [Hr [Hd [_ Ht]]].
        intros H. rewrite Hr in H. injection H as <-.
        exists rs, f.
        assert (Hin : In f (filter (fun f => accepted_ext (splitext_ext f))
                                   (glob_ext g input_name))) by (rewrite Hm; left; reflexivity).
        apply filter_In in Hin. destruct Hin as [Hin Hacc].
        repeat split; auto.
        unfold add_export_job, bind, modify, ret, py_index0. cbv beta.
        rewrite Hg. cbv iota beta zeta. unfold makedirs_exist_ok. rewrite Hf.
        destruct (existsb _ (dirs (fs s))); cbv iota beta zeta; rewrite Hm; reflexivity.
Qed.

(** A successful [add_export_job] returns [export_dir/plugin_name_start],
    which then exists and is the plugin's [output], and appends exactly one
    fresh task whose source is an entry of the recording directory matching
    [input_name] with an accepted extension, and whose target is
    [output_name.mp4] inside the returned directory. *)
Theorem add_export_job_success g export_dir plugin_name input_name output_name s d :
  snd (add_export_job g export_dir plugin_name input_name output_name s) = inr d ->
  exists rec_start f,
    get_recording_start_date g s = (s, inr rec_start)
    /\ d = path_join export_dir (plugin_name ++ "_" ++ rec_start)
    /\ In f (glob_ext g input_name) /\ accepted_ext (splitext_ext f) = true
    /\ In d (dirs (fs (fst (add_export_job g export_dir plugin_name input_name output_name s))))
    /\ output (plugin (fst (add_export_job g export_dir plugin_name input_name output_name s))) = d
    /\ export_tasks (plugin (fst (add_export_job g export_dir plugin_name input_name
                                    output_name s)))
       = export_tasks (plugin s)
         ++ [("taskname", mkTask (plugin_name ++ " Video Export")
                            (f, path_join d (output_name ++ ".mp4")) [] false)].
Proof.
  exact (add_export_job_success_spec g export_dir plugin_name input_name output_name s d).
Qed.

Lemma add_export_job_success_witness :
  snd (add_export_job (mkGPool "/rec" ["world.txt"; "world.mp4"] (Some demo_info)) "/exp"
         "iMotions" "world" "scene" (mkSt fresh_plugin (mkFS [] [])))
  = inr "/exp/iMotions_01_02_2017_10_11_12"
  /\ In "/rec/world.mp4" (glob_ext (mkGPool "/rec" ["world.txt"; "world.mp4"] (Some demo_info))
                                   "world").
Proof.
  assert (H : snd (add_export_job (mkGPool "/rec" ["world.txt"; "world.mp4"] (Some demo_info))
         "/exp" "iMotions" "world" "scene" (mkSt fresh_plugin (mkFS [] [])))
              = inr "/exp/iMotions_01_02_2017_10_11_12") by (vm_compute; reflexivity).
  split; [exact H |].
  destruct (add_export_job_success _ _ _ _ _ _ _ H) as [rs [f [Hg [_ [Hin _]]]]].
  vm_compute. right. left. reflexivity.
Defined.


Lemma get_replace_char a b s n :
  get n (replace_char a b s)
  = option_map (fun c => if Ascii.eqb c a then b else c) (get n s).
Proof.
  revert n. induction s as [| c s IH]; intros [| n]; cbn; auto.
Qed.

Lemma replace_char_removes a b s n :
  a <> b -> get n (replace_char a b s) <> Some a.
Proof.
  intros Hab. rewrite get_replace_char.
  destruct (get n s) as [c |]; cbn; [| discriminate].
  destruct (Ascii.eqb_spec c a); intros E; injection E as E; congruence.
Qed.

Lemma replace_char_keeps_absent a b c s n :
  c <> b -> get n s <> Some c -> get n (replace_char a b s) <> Some c.
Proof.
  intros Hcb Hs. rewrite get_replace_char.
  destruct (get n s) as [x |]; cbn; [| discriminate].
  destruct (Ascii.eqb_spec x a); intros E; injection E as E; subst; congruence.
Qed.

(** The recording start used in the destination directory name is
    [date_time], where the date has no ['.'] and no [':'] and the time has
    no [':']. *)
Theorem get_recording_start_date_format g s s' r :
  get_recording_start_date g s = (s', inr r) ->
  exists date time : string,
    r = (date ++ "_" ++ time)%string
    /\ (forall n, get n date <> Some "."%char /\ get n date <> Some ":"%char)
    /\ (forall n, get n time <> Some ":"%char).
Proof.
  unfold get_recording_start_date.
  destruct (rec_info g) as [kv |]; [| cbn; intros H; discriminate H].
  destruct (lookup_key "Start Date" kv) as [d |], (lookup_key "Start Time" kv) as [t |];
    cbn; intros H; try discriminate H.
  injection H as _ <-.
  eexists _, _. split; [reflexivity |]. split.
  - intros n. split.
    + apply replace_char_keeps_absent; [discriminate |].
      apply replace_char_removes. discriminate.
    + apply replace_char_removes. discriminate.
  - intros n. apply replace_char_removes. discriminate.
Qed.

Lemma get_recording_start_date_format_witness :
  get_recording_start_date (mkGPool "/rec" [] (Some demo_info)) (mkSt fresh_plugin (mkFS [] []))
  = (mkSt fresh_plugin (mkFS [] []), inr "01_02_2017_10_11_12") /\
  exists date time : string, "01_02_2017_10_11_12" = (date ++ "_" ++ time)%string
    /\ (forall n, get n date <> Some "."%char /\ get n date <> Some ":"%char)
    /\ (forall n, get n time <> Some ":"%char).
Proof.
  split; [reflexivity |].
  apply (get_recording_start_date_format (mkGPool "/rec" [] (Some demo_info))
           (mkSt fresh_plugin (mkFS [] [])) (mkSt fresh_plugin (mkFS [] []))).
  reflexivity.
Defined.

(* ------------------------------------------------------------------ *)
(** ** Further properties of [recent_events], [cancel] and [on_notify] *)

(** What [recent_events] does to the task list. *)
Lemma recent_events_consumes_spec p :
  Forall (fun nt => pending (snd nt) = []) (export_tasks (recent_events p))
  /\ map (fun nt => (fst nt, task_name (snd nt), task_args (snd nt), canceled (snd nt)))
         (export_tasks (recent_events p))
     = map (fun nt => (fst nt, task_name (snd nt), task_args (snd nt), canceled (snd nt)))
           (export_tasks p)
  /\ output (recent_events p) = output p.
Proof.
  unfold recent_events.
  generalize (status p) (progress p). intros st0 pr0.
  assert (H : forall tasks st pr,
             Forall (fun nt => pending (snd nt) = []) (fst (recent_events_loop tasks st pr))
             /\ map (fun nt => (fst nt, task_name (snd nt), task_args (snd nt), canceled (snd nt)))
                    (fst (recent_events_loop tasks st pr))
                = map (fun nt => (fst nt, task_name (snd nt), task_args (snd nt), canceled (snd nt)))
                      tasks).
  { induction tasks as [| [n t] tasks IH]; intros st pr; [split; constructor |].
    cbn [recent_events_loop fetch].
    destruct (match last_opt (pending t) with Some ev => ev | None => (st, pr) end) as [s1 p1].
    destruct (if canceled t then ("Export has been canceled", 0) else (s1, p1)) as [s2 p2].
    specialize (IH s2 p2).
    destruct (recent_events_loop tasks s2 p2) as [r sp]. cbn in *.
    destruct IH as [IH1 IH2]. split; [constructor; auto | rewrite IH2; reflexivity]. }
  specialize (H (export_tasks p) st0 pr0).
  destruct (recent_events_loop (export_tasks p) st0 pr0) as [r [st pr]].
  cbn in *. destruct H as [H1 H2]. split; [exact H1 | split; [exact H2 | reflexivity]].
Qed.


(** If the progress is in [0, 100] and so is every pending event's percent
    (as the export generator guarantees), the progress after
    [recent_events] is in [0, 100] and the menu indicator of [gl_display]
    in [0, 1]. *)
Theorem recent_events_progress_bounds p :
  0 <= progress p <= 100 ->
  (forall n t m q, In (n, t) (export_tasks p) -> In (m, q) (pending t) -> 0 <= q <= 100) ->
  0 <= progress (recent_events p) <= 100 /\ 0 <= gl_display (recent_events p) <= 1.
Proof.
  intros Hp Hev.
  assert (H : forall tasks st pr, 0 <= pr <= 100 ->
             (forall n t m q, In (n, t) tasks -> In (m, q) (pending t) -> 0 <= q <= 100) ->
             0 <= snd (snd (recent_events_loop tasks st pr)) <= 100).
  { induction tasks as [| [n t] tasks IH]; intros st pr Hpr Htk; [exact Hpr |].
    cbn [recent_events_loop fetch].
    assert (H1 : 0 <= snd (match last_opt (pending t) with Some ev => ev
                                                         | None => (st, pr) end) <= 100).
    { destruct (last_opt (pending t)) as [[m q] |] eqn:Hl; [| exact Hpr].
      apply (Htk n t m q (or_introl eq_refl)).
      clear - Hl. induction (pending t) as [| x xs IHx]; [discriminate |].
      destruct xs as [| y xs]; [injection Hl as ->; left; reflexivity |].
      right. apply IHx. exact Hl. }
    destruct (match last_opt (pending t) with Some ev => ev | None => (st, pr) end)
      as [s1 p1].
    assert (H2 : 0 <= snd (if canceled t then ("Export has been canceled", 0) else (s1, p1))
                 <= 100) by (destruct (canceled t); cbn in *; [lra | exact H1]).
    destruct (if canceled t then ("Export has been canceled", 0) else (s1, p1)) as [s2 p2].
    specialize (IH s2 p2 H2 (fun n' t' m q H Hq => Htk n' t' m q (or_intror H) Hq)).
    destruct (recent_events_loop tasks s2 p2) as [r [s3 p3]]. exact IH. }
  specialize (H (export_tasks p) (status p) (progress p) Hp Hev).
  unfold recent_events, gl_display.
  destruct (recent_events_loop (export_tasks p) (status p) (progress p)) as [r [st pr]].
  cbn in *. split; [exact H |].
  split.
  - apply Qle_shift_div_l; [reflexivity | lra].
  - apply Qle_shift_div_r; [reflexivity | lra].
Qed.

Lemma recent_events_progress_bounds_witness :
  0 <= progress (mkVideoExporter demo_tasks "Not exporting" 0 "Not set yet") <= 100 /\
  0 <= gl_display (recent_events (mkVideoExporter demo_tasks "Not exporting" 0 "Not set yet"))
  <= 1.
Proof.
  assert (Hp : 0 <= progress (mkVideoExporter demo_tasks "Not exporting" 0 "Not set yet") <= 100)
    by (cbn; split; unfold Qle; cbn; lia).
  split; [exact Hp |].
  apply (recent_events_progress_bounds _ Hp).
  intros n t m q Hn Hq. cbn in Hn.
  destruct Hn as [E | [E | []]]; injection E as <- <-; cbn in Hq;
    [destruct Hq | destruct Hq as [E | []]; injection E as <- <-];
    split; unfold Qle; cbn; lia.
Defined.


(** How the tracked task list changes in any call of [add_export_job]:
    unchanged when it raises, one fresh task appended when it succeeds. *)
Lemma add_export_job_tasks g export_dir plugin_name input_name output_name s :
  export_tasks (plugin (fst (add_export_job g export_dir plugin_name input_name output_name s)))
  = export_tasks (plugin s)
  \/ exists t, export_tasks (plugin (fst (add_export_job g export_dir plugin_name input_name
                                           output_name s)))
               = export_tasks (plugin s) ++ [("taskname", t)]
               /\ canceled t = false /\ pending t = [].
Proof.
  pose proof (get_recording_start_date_state g s) as Hst.
  destruct (get_recording_start_date g s) as [s1 [e | rs]] eqn:Hg;
    cbn [fst] in Hst; subst s1.
  - left. unfold add_export_job, bind at 1. cbv beta. rewrite Hg. reflexivity.
  - destruct (existsb (String.eqb (path_join export_dir (plugin_name ++ "_" ++ rs)))
      (files (fs s))) eqn:Hf.
    + left. unfold add_export_job, bind at 1. cbv beta. rewrite Hg. cbv iota beta zeta.
      unfold bind at 1, makedirs_exist_ok. rewrite Hf. reflexivity.
    + destruct (filter (fun f => accepted_ext (splitext_ext f)) (glob_ext g input_name))
        as [| f rest] eqn:Hm.
      * left. unfold add_export_job, bind, modify, ret, py_index0. cbv beta.
        rewrite Hg. cbv iota beta zeta. unfold makedirs_exist_ok. rewrite Hf.
        destruct (existsb _ (dirs (fs s))); cbv iota beta zeta; rewrite Hm; reflexivity.
      * right.
        destruct (add_export_job_registers g export_dir plugin_name input_name output_name
                    s rs f rest Hg Hf Hm) as [_ [_ [_ Ht]]].
        eexists. split; [exact Ht | split; reflexivity].
Qed.

(** On a [should_export] notification, with an [export_data] that makes one
    [add_export_job] call, the previously tracked tasks are dropped: after a
    successful call exactly one, fresh, task is tracked.  Any other
    notification changes nothing. *)
Theorem on_notify_single_task g plugin_name input_name output_name n s :
  (String.eqb (subject n) "should_export" = false ->
     on_notify (single_job_export_data g plugin_name input_name output_name) n s = (s, inr tt))
  /\ (subject n = "should_export" ->
      snd (on_notify (single_job_export_data g plugin_name input_name output_name) n s)
        = inr tt ->
      exists t,
        export_tasks (plugin (fst (on_notify (single_job_export_data g plugin_name input_name
                                                output_name) n s))) = [("taskname", t)]
        /\ canceled t = false /\ pending t = []).
Proof.
  split.
  - intros Hn. unfold on_notify. rewrite Hn. reflexivity.
  - intros Hn. unfold on_notify. rewrite Hn. cbn [String.eqb Ascii.eqb Bool.eqb andb].
    unfold single_job_export_data, bind, modify. cbv beta iota.
    remember (mkSt (snd (cancel (plugin s))) (fs s)) as s0 eqn:Hs0.
    pose proof (add_export_job_tasks g (notif_export_dir n) plugin_name input_name
                  output_name s0) as Ht.
    destruct (add_export_job g (notif_export_dir n) plugin_name input_name output_name s0)
      as [s1 [e | d]] eqn:E; unfold ret; cbn [fst snd] in *; intros H; [discriminate H |].
    destruct Ht as [Ht | [t [Ht [Hc Hp]]]].
    + (* the call succeeded, so it appended a task *)
      exfalso.
      destruct (add_export_job_success_spec g (notif_export_dir n) plugin_name input_name
                  output_name s0 d ltac:(rewrite E; reflexivity))
        as [rs [f [_ [_ [_ [_ [_ [_ Ht']]]]]]]].
      rewrite E in Ht'. cbn [fst] in Ht'. rewrite Ht in Ht'.
      apply (f_equal (@List.length _)) in Ht'. rewrite length_app in Ht'. cbn in Ht'. lia.
    + exists t. rewrite Ht, Hs0. split; [reflexivity | split; assumption].
Qed.

Lemma on_notify_single_task_witness :
  let g := mkGPool "/rec" ["world.mp4"] (Some demo_info) in
  let n := mkNotification "should_export" (0, 1) "/exp" in
  let s := mkSt (mkVideoExporter demo_tasks "Not exporting" 0 "Not set yet") (mkFS [] []) in
  subject n = "should_export" /\
  snd (on_notify (single_job_export_data g "iMotions" "world" "scene") n s) = inr tt /\
  List.length (export_tasks (plugin (fst (on_notify (single_job_export_data g "iMotions"
                                       "world" "scene") n s)))) = 1%nat.
Proof.
  intros g n s.
  assert (Hok : snd (on_notify (single_job_export_data g "iMotions" "world" "scene") n s)
                = inr tt) by (vm_compute; reflexivity).
  split; [reflexivity | split; [exact Hok |]].
  destruct (proj2 (on_notify_single_task g "iMotions" "world" "scene" n s) eq_refl Hok)
    as [t [Ht _]].
  rewrite Ht. reflexivity.
Defined.

(** No operation of the plugin ever tracks a cancelled task: a fresh
    plugin has none, and [add_export_job], [recent_events] and [cancel]
    keep it so. *)
Theorem no_canceled_invariant g export_dir plugin_name input_name output_name s p :
  no_canceled init_VideoExporter
  /\ (no_canceled (plugin s) ->
      no_canceled (plugin (fst (add_export_job g export_dir plugin_name input_name
                                  output_name s))))
  /\ (no_canceled p -> no_canceled (recent_events p))
  /\ no_canceled (snd (cancel p)).
Proof.
  split; [intros n t [] |].
  split; [| split; [| intros n t []]].
  - intros Hs n t Hin.
    destruct (add_export_job_tasks g export_dir plugin_name input_name output_name s)
      as [Ht | [t' [Ht [Hc _]]]]; rewrite Ht in Hin; [exact (Hs n t Hin) |].
    apply in_app_iff in Hin. destruct Hin as [Hin | [E | []]]; [exact (Hs n t Hin) |].
    injection E as <- <-. exact Hc.
  - intros Hp n t Hin.
    pose proof (proj1 (proj2 (recent_events_consumes_spec p))) as Hmap.
    assert (Hin' : In (n, task_name t, task_args t, canceled t)
                      (map (fun nt => (fst nt, task_name (snd nt), task_args (snd nt),
                                       canceled (snd nt))) (export_tasks p))).
    { rewrite <- Hmap. apply in_map_iff. exists (n, t). split; [reflexivity | exact Hin]. }
    apply in_map_iff in Hin'. destruct Hin' as [[n' t'] [E Hin']].
    injection E as -> _ _ <-. exact (Hp n t' Hin').
Qed.
